(** * relayer-engine: metrics middleware and action executor

    A shallow embedding of [src/relayer/middleware/metrics.middleware.ts]
    (the [getLabels] helper and the handler returned by [metrics]) and of the
    [Action] / [ActionExecutor] declarations of the plugin interface file,
    together with the properties the specification states about them.

    Conventions of the embedding:
    - JavaScript values are the inductive [value]; numbers are restricted to
      integer-valued ones (as [Z]) plus [NaN], objects other than label
      records are opaque references (always truthy).
    - A label record ([MetricRecord], a JS object used as a map) is a
      [gmap string value]; reading a missing key gives [undefined].
    - An asynchronous computation that has settled is a pair of the trace of
      effects it performed and its outcome ([Fulfilled] or [Rejected]); the
      monad [Eff] sequences such computations the way [await] does.
    - prom-client (counters, histogram) and the logger are external: a call
      to them is an [event] of the trace.
    - Caller-supplied code (the downstream handlers behind [next], the label
      customizer) is taken once it has settled, and is taken to leave the
      job and the logger of the context as they are (the engine and its
      collaborators only read them during an attempt).
    - The record a customizer resolves with is a plain object: its own
      properties are the entries of the map, and it inherits the members of
      the unmodified [Object.prototype], which [labels[key]] reads when the
      record has no own property [key]. *)

From stdpp Require Import base option list strings gmap fin_maps.
From Stdlib Require Import ZArith Lia.

Open Scope string_scope.
Open Scope Z_scope.
Open Scope list_scope.

(** ** JavaScript values *)

Inductive value : Type :=
| VUndefined
| VNull
| VBool (b : bool)
| VNum (n : Z)
| VNaN
| VStr (s : string)
| VObj (ref : nat)
| VBuiltin (name : string).

(** [ToBoolean]: what [if (v)] tests. *)
Definition truthy (v : value) : bool :=
  match v with
  | VUndefined | VNull | VNaN => false
  | VBool b => b
  | VNum n => negb (Z.eqb n 0)
  | VStr s => negb (String.eqb s "")
  | VObj _ | VBuiltin _ => true
  end.

(** [v !== null]. *)
Definition strict_ne_null (v : value) : bool :=
  match v with
  | VNull => false
  | _ => true
  end.

(** [`${b}`] for a boolean. *)
Definition template_of_bool (b : bool) : string :=
  if b then "true" else "false".

(** [a ?? d] where an unset ([undefined] or [null]) property is [None]. *)
Definition nullish {A : Type} (a : option A) (d : A) : A :=
  match a with
  | Some x => x
  | None => d
  end.

(** [type MetricRecord = Record<string, string | number>]: the values are
    not restricted by the run time, so they are plain [value]s. *)
Abbreviation MetricRecord := (gmap string value).

(** The property names of [Object.prototype]: the functions every plain
    object inherits, and the accessor [__proto__]. *)
Definition object_prototype_names : list string :=
  ["constructor"; "__defineGetter__"; "__defineSetter__"; "hasOwnProperty";
   "__lookupGetter__"; "__lookupSetter__"; "isPrototypeOf"; "propertyIsEnumerable";
   "toString"; "valueOf"; "__proto__"; "toLocaleString"].

Definition inherited (key : string) : bool :=
  existsb (String.eqb key) object_prototype_names.

(** [o[key]] on a plain object: the own property if there is one, otherwise
    what [Object.prototype] has under that name (a built-in function; for
    [__proto__] the prototype itself), otherwise [undefined]. *)
Definition get_prop (o : MetricRecord) (key : string) : value :=
  match o !! key with
  | Some v => v
  | None => if inherited key then VBuiltin key else VUndefined
  end.

(** [o[key] = v] on a plain object that has no own [__proto__]: an own
    property is created or overwritten, except that assigning to [__proto__]
    calls the setter of [Object.prototype], which creates no property. *)
Definition set_prop (o : MetricRecord) (key : string) (v : value) : MetricRecord :=
  if String.eqb key "__proto__" then o else <[key := v]> o.

(** [{ ...a, ...b }]: the properties of [b] override those of [a]. *)
Definition spread (a b : MetricRecord) : MetricRecord := b ∪ a.

(** ** Settled asynchronous computations *)

Inductive outcome (A : Type) : Type :=
| Fulfilled (a : A)
| Rejected (e : value).
Arguments Fulfilled {A} a.
Arguments Rejected {A} e.

(** ** Processing context

    Modelled from the spec: the [StorageContext] type is imported from
    [../storage/storage], which is not among the sources.  The fields are the
    ones the middleware reads ([ctx.logger?.error], [ctx.storage.job?.attempts],
    [ctx.storage.job?.maxAttempts]); the spec's data model gives [attempts] and
    [maxAttempts] as optional integers and the logger as optional. *)

Record Job : Type := {
  attempts : option Z;
  maxAttempts : option Z
}.

Record Storage : Type := {
  job : option Job
}.

Inductive Logger : Type := StructuredLogger.

Record StorageContext : Type := {
  storage : Storage;
  logger : option Logger
}.

(** prom-client registries: the process-wide [register] or one of the
    caller's. *)
Inductive Registry : Type :=
| register
| CustomRegistry (id : nat).

Record CounterConfiguration : Type := {
  counter_name : string;
  counter_help : string;
  counter_labelNames : list string;
  counter_registers : list Registry
}.

Record HistogramConfiguration : Type := {
  histogram_name : string;
  histogram_help : string;
  histogram_buckets : list Z;
  histogram_labelNames : list string;
  histogram_registers : list Registry
}.

Section Middleware.

(** [D] is the type of the effects of caller-supplied code (the downstream
    handlers behind [next], the label customizer). *)
Context {D : Type}.

(** *** Effects and the monad of settled computations *)

Inductive event : Type :=
| CounterInc (name : string) (labels : MetricRecord)
| HistogramObserve (name : string) (labels : MetricRecord) (time : Z)
| LoggerError (message : string) (error : value)
| NextCalled
| CustomizerCalled
| External (d : D).

Definition Eff (A : Type) : Type := list event * outcome A.

#[global] Instance Eff_ret : MRet Eff := λ A a, ([], Fulfilled a).

#[global] Instance Eff_bind : MBind Eff := λ A B k m,
  match m with
  | (tr, Fulfilled a) => let '(tr', o) := k a in (tr ++ tr', o)
  | (tr, Rejected e) => (tr, Rejected e)
  end.

Definition emit (ev : event) : Eff unit := ([ev], Fulfilled tt).

Definition throw {A : Type} (e : value) : Eff A := ([], Rejected e).

(** [try { body } catch (e) { handler(e) }] *)
Definition try_catch {A : Type} (body : Eff A) (handler : value → Eff A) : Eff A :=
  match body with
  | (tr, Fulfilled a) => (tr, Fulfilled a)
  | (tr, Rejected e) => let '(tr', o) := handler e in (tr ++ tr', o)
  end.

(** Caller-supplied code that has settled: its own effects and its outcome
    (a synchronous throw and a rejected promise both are [Rejected]: the
    callers below [await] inside a [try]). *)
Definition Settled (A : Type) : Type := list D * outcome A.

Definition run_external {A : Type} (c : Settled A) : Eff A :=
  (External <$> c.1, c.2).

Definition trace {A : Type} (m : Eff A) : list event := m.1.
Definition result {A : Type} (m : Eff A) : outcome A := m.2.

(** *** Options *)

Record MetricLabelsOpts : Type := {
  labelNames : list string;
  customizer : StorageContext → Settled MetricRecord
}.

Record MetricsOpts : Type := {
  registry : option Registry;
  labels : option MetricLabelsOpts;
  processingTimeBuckets : option (list Z)
}.

(** [opts.labels?.labelNames ?? []] *)
Definition allowedKeys (opts : MetricsOpts) : list string :=
  match labels opts with
  | Some l => labelNames l
  | None => []
  end.

(** [await (opts.labels?.customizer(ctx) ?? Promise.resolve({}))] *)
Definition customized (ctx : StorageContext) (opts : MetricsOpts) : Eff MetricRecord :=
  match labels opts with
  | Some l => emit CustomizerCalled ;; run_external (customizer l ctx)
  | None => mret ∅
  end.

(** [ctx.logger?.error(message, error)] *)
Definition logger_error (ctx : StorageContext) (message : string) (error : value) : Eff unit :=
  match logger ctx with
  | Some _ => emit (LoggerError message error)
  | None => mret tt
  end.

(** The body of [allowedKeys.forEach(key => ...)], on the accumulated
    [validatedLabels]. *)
Definition validate_key (labels validatedLabels : MetricRecord) (key : string) : MetricRecord :=
  if truthy (get_prop labels key)
  then set_prop validatedLabels key (get_prop labels key)
  else validatedLabels.

Definition status_of (failed : bool) : string :=
  if failed then "failed" else "succeeded".

(** *** [getLabels] *)

Definition getLabels (ctx : StorageContext) (opts : MetricsOpts) (failed : bool) : Eff MetricRecord :=
  let defaultLabels : MetricRecord := {[ "status" := VStr (status_of failed) ]} in
  try_catch
    (labels ← customized ctx opts;
     let validatedLabels := foldl (validate_key labels) ∅ (allowedKeys opts) in
     mret (spread validatedLabels defaultLabels))
    (λ error,
       logger_error ctx "Failed to customize metric labels, please review" error ;;
       mret defaultLabels).

(** *** [metrics] *)

(** [opts.registry = opts.registry || register] *)
Definition effective_registry (opts : MetricsOpts) : Registry :=
  match registry opts with
  | Some r => r
  | None => register
  end.

Definition processedVaasTotal (opts : MetricsOpts) : CounterConfiguration := {|
  counter_name := "vaas_processed_total";
  counter_help := "Number of incoming vaas processed successfully or unsuccessfully.";
  counter_labelNames := ["status"] ++ allowedKeys opts;
  counter_registers := [effective_registry opts]
|}.

Definition finishedVaasTotal (opts : MetricsOpts) : CounterConfiguration := {|
  counter_name := "vaas_finished_total";
  counter_help := "Number of vaas processed successfully or unsuccessfully.";
  counter_labelNames := ["status"; "terminal"] ++ allowedKeys opts;
  counter_registers := [effective_registry opts]
|}.

Definition processingDuration (opts : MetricsOpts) : HistogramConfiguration := {|
  histogram_name := "vaas_processing_duration";
  histogram_help := "Processing time in ms for jobs";
  histogram_buckets :=
    match processingTimeBuckets opts with
    | Some b => b
    | None => [6000; 7000; 7500; 8000; 8500; 9000; 10000; 12000]
    end;
  histogram_labelNames := ["status"] ++ allowedKeys opts;
  histogram_registers := [effective_registry opts]
|}.

(** [(ctx.storage.job?.attempts ?? 0) === (ctx.storage.job?.maxAttempts ?? -1)] *)
Definition reachedMaxAttempts (ctx : StorageContext) : bool :=
  Z.eqb (nullish (job (storage ctx) ≫= attempts) 0)
        (nullish (job (storage ctx) ≫= maxAttempts) (-1)).

(** The two readings of [Date.now()]: before [next()] is called and after it
    has settled. *)
Record Clock : Type := {
  now_before : Z;
  now_after : Z
}.

(** A handler of the pipeline; [next] is the remainder of the chain. *)
Definition Middleware : Type :=
  StorageContext → Settled unit → Clock → Eff unit.

(** The handler returned by [metrics(opts)].  [failure] is the mutable
    variable of the source: [null] unless the [catch] assigned it. *)
Definition metrics (opts : MetricsOpts) : Middleware := λ ctx next clock,
  emit (CounterInc (counter_name (processedVaasTotal opts)) ∅) ;;
  let startTime := now_before clock in
  failure ← try_catch
              (emit NextCalled ;; run_external next ;; mret VNull)
              (λ e, mret e);
  let time := now_after clock - startTime in
  labels ← getLabels ctx opts (strict_ne_null failure);
  emit (HistogramObserve (histogram_name (processingDuration opts)) labels time) ;;
  if truthy failure then
    emit (CounterInc (counter_name (finishedVaasTotal opts))
            (spread labels {[ "terminal" := VStr (template_of_bool (reachedMaxAttempts ctx)) ]})) ;;
    throw failure
  else
    emit (CounterInc (counter_name (finishedVaasTotal opts)) labels).

(** *** Reading a trace *)

(** The label sets of the increments of the counter [name], in order. *)
Definition counter_increments (name : string) (tr : list event) : list MetricRecord :=
  omap (λ ev, match ev with
              | CounterInc n l => if String.eqb n name then Some l else None
              | _ => None
              end) tr.

(** The observations of the histogram [name], in order. *)
Definition histogram_observations (name : string) (tr : list event) : list (MetricRecord * Z) :=
  omap (λ ev, match ev with
              | HistogramObserve n l t => if String.eqb n name then Some (l, t) else None
              | _ => None
              end) tr.

(** The errors handed to the logger, in order. *)
Definition logged_errors (tr : list event) : list value :=
  omap (λ ev, match ev with
              | LoggerError _ e => Some e
              | _ => None
              end) tr.

(** How many times [next()] was called. *)
Definition next_calls (tr : list event) : nat :=
  length (omap (λ ev, match ev with
                      | NextCalled => Some tt
                      | _ => None
                      end) tr).

(** A call to prom-client: an increment or an observation. *)
Definition is_recording (ev : event) : bool :=
  match ev with
  | CounterInc _ _ | HistogramObserve _ _ _ => true
  | _ => false
  end.

(** The value of the variable [failure] once [next()] has settled. *)
Definition failure_of (o : outcome unit) : value :=
  match o with
  | Fulfilled _ => VNull
  | Rejected e => e
  end.

(** The two components of a run of [getLabels]. *)
Definition labelsTrace (ctx : StorageContext) (opts : MetricsOpts) (failed : bool) : list event :=
  trace (getLabels ctx opts failed).

Definition computedLabels (ctx : StorageContext) (opts : MetricsOpts) (failed : bool) : MetricRecord :=
  match result (getLabels ctx opts failed) with
  | Fulfilled computed => computed
  | Rejected _ => ∅
  end.

(** Events that are neither a call to prom-client nor a call of [next]. *)
Definition quiet (ev : event) : bool :=
  match ev with
  | CustomizerCalled | External _ | LoggerError _ _ => true
  | CounterInc _ _ | HistogramObserve _ _ _ | NextCalled => false
  end.

(** The same options with no [labels]. *)
Definition without_labels (opts : MetricsOpts) : MetricsOpts := {|
  registry := registry opts;
  labels := None;
  processingTimeBuckets := processingTimeBuckets opts
|}.

(** The terminal flag in the words of the specification:
    [job.attempts === job.maxAttempts], false if either is unset. *)
Definition spec_terminal (ctx : StorageContext) : bool :=
  match job (storage ctx) with
  | Some j =>
      match attempts j, maxAttempts j with
      | Some a, Some m => Z.eqb a m
      | _, _ => false
      end
  | None => false
  end.

End Middleware.
Arguments event D : clear implicits.
Arguments Eff D A : clear implicits.
Arguments Settled D A : clear implicits.
Arguments MetricLabelsOpts D : clear implicits.
Arguments MetricsOpts D : clear implicits.
Arguments Middleware D : clear implicits.

(** ** The action executor

    The source declares the types of actions and of the executor
    ([Action], [ActionFunc], [WalletToolBox], [ActionExecutor]); the function
    that implements [ActionExecutor] is not among the sources. *)

Module Executor.

Definition ChainId : Type := Z.

(** [type Wallet = EVMWallet | SolanaWallet | CosmWallet] *)
Inductive Wallet : Type :=
| EVMWallet (address : string)
| SolanaWallet (conn payer : nat)
| CosmWallet.

(** [interface WalletToolBox<T extends Wallet> extends Providers]: the
    providers are opaque connection handles. *)
Record WalletToolBox : Type := {
  evm : ChainId → nat;
  solana : nat;
  wallet : Wallet
}.

Section Execute.

(** [T] is the type of the action's result, [E] of the effects of its
    function. *)
Context {T E : Type}.

(** [type ActionFunc<T, W> = (walletToolBox, chaidId) => Promise<T>], once
    settled. *)
Definition ActionFunc : Type :=
  WalletToolBox → ChainId → list E * outcome T.

Record Action : Type := {
  chainId : ChainId;
  f : ActionFunc
}.

Inductive exec_event : Type :=
| Invoked (toolBox : WalletToolBox) (chain : ChainId)
| Effect (e : E).

(** Modelled from the spec: the implementation of [ActionExecutor] is
    missing from the sources; its declared type is [(action) => Promise<T>],
    so a run of it settles as a value of [T] or as a raised value.  Section
    4.3: resolve the toolbox for [action.chainId] through the external
    resolution contract ([resolve]: a toolbox, or a failure "wallet
    unavailable for chain"); invoke [action.f(toolBox, action.chainId)];
    return its result; propagate any failure raised by [f] unchanged; no
    retry. *)
Definition execute (resolve : ChainId → outcome WalletToolBox) (action : Action)
  : list exec_event * outcome T :=
  match resolve (chainId action) with
  | Rejected unavailable => ([], Rejected unavailable)
  | Fulfilled toolBox =>
      let '(effects, o) := f action toolBox (chainId action) in
      (Invoked toolBox (chainId action) :: (Effect <$> effects), o)
  end.

(** How many times the executor called an action function. *)
Definition invocations (tr : list exec_event) : nat :=
  length (omap (λ ev, match ev with
                      | Invoked _ _ => Some tt
                      | Effect _ => None
                      end) tr).

End Execute.
Arguments ActionFunc T E : clear implicits.
Arguments Action T E : clear implicits.
Arguments exec_event E : clear implicits.

End Executor.

(** ** Sample inputs *)

Module Samples.

Definition no_opts : MetricsOpts string := {|
  registry := None;
  labels := None;
  processingTimeBuckets := None
|}.

(** [labelNames = ["a"]], a customizer that resolves with [{a: 1, b: 2}]. *)
Definition opts_a_b : MetricsOpts string := {|
  registry := None;
  labels := Some {|
    labelNames := ["a"];
    customizer := λ _, (["customize"], Fulfilled (<["a" := VNum 1]> (<["b" := VNum 2]> ∅)))
  |};
  processingTimeBuckets := None
|}.

(** [labelNames = ["a"; "z"; "e"; "f"; "n"]], a customizer that resolves
    with [{a: 1, z: 0, e: "", f: false, n: null}]. *)
Definition opts_falsy : MetricsOpts string := {|
  registry := None;
  labels := Some {|
    labelNames := ["a"; "z"; "e"; "f"; "n"];
    customizer := λ _,
      ([], Fulfilled (<["a" := VNum 1]> (<["z" := VNum 0]> (<["e" := VStr ""]>
                       (<["f" := VBool false]> (<["n" := VNull]> ∅))))))
  |};
  processingTimeBuckets := None
|}.

(** A customizer that rejects with the error object [#7]. *)
Definition opts_rejecting : MetricsOpts string := {|
  registry := Some (CustomRegistry 1);
  labels := Some {|
    labelNames := ["a"];
    customizer := λ _, (["customize"], Rejected (VObj 7))
  |};
  processingTimeBuckets := Some [100; 1000]
|}.

Definition ctx_of (a m : option Z) (l : option Logger) : StorageContext := {|
  storage := {| job := Some {| attempts := a; maxAttempts := m |} |};
  logger := l
|}.

Definition ctx_no_job : StorageContext := {|
  storage := {| job := None |};
  logger := None
|}.

Definition clock_5ms : Clock := {| now_before := 1000; now_after := 1005 |}.

(** Downstream handlers that raise the error object [#0], [undefined] and
    [null]. *)
Definition next_raises_error : Settled string unit := (["handle"], Rejected (VObj 0)).
Definition next_raises_undefined : Settled string unit := (["handle"], Rejected VUndefined).
Definition next_raises_null : Settled string unit := (["handle"], Rejected VNull).
Definition next_returns : Settled string unit := (["handle"], Fulfilled tt).

(** An executor environment with a wallet for chain 2 only, and three
    actions: one that submits a transaction and returns its hash, one that
    fails, and one whose function itself fails for want of a wallet. *)
Definition evm_toolbox : Executor.WalletToolBox := {|
  Executor.evm := λ _, 0%nat;
  Executor.solana := 0%nat;
  Executor.wallet := Executor.EVMWallet "0xabc"
|}.

Definition wallet_unavailable : value := VStr "wallet unavailable for chain".

Definition resolve_chain_2 (chain : Executor.ChainId) : outcome Executor.WalletToolBox :=
  if Z.eqb chain 2 then Fulfilled evm_toolbox else Rejected wallet_unavailable.

Definition submit_on (chain : Executor.ChainId) : Executor.Action string string := {|
  Executor.chainId := chain;
  Executor.f := λ _ _, (["sendTransaction"], Fulfilled "0xhash")
|}.

Definition revert_on (chain : Executor.ChainId) : Executor.Action string string := {|
  Executor.chainId := chain;
  Executor.f := λ _ _, (["sendTransaction"], Rejected (VStr "reverted"))
|}.


End Samples.

(** ** The constructor of the label options, more readers of a trace *)

Section MiddlewareSetup.

Context {D : Type}.

(** [new MetricLabelsOpts(labelNames, customizer)]: the parameter default
    [labelNames = []] applies when the argument is [undefined]. *)
Definition new_MetricLabelsOpts (names : option (list string))
    (custom : StorageContext → Settled D MetricRecord) : MetricLabelsOpts D := {|
  labelNames := nullish names [];
  customizer := custom
|}.

(** How many times the label customizer was called. *)
Definition customizer_calls (tr : list (event D)) : nat :=
  length (omap (λ ev, match ev with
                      | CustomizerCalled => Some tt
                      | _ => None
                      end) tr).

End MiddlewareSetup.

Module MoreSamples.

(** The allow-lists [["a"; "b"; "a"]] and [["b"; "a"]] with a customizer
    that resolves with [{a: 1, b: 2, c: 3}], and [["b"; "a"]] with one that
    resolves with [{a: 1, b: 2}]. *)
Definition opts_aba : MetricsOpts string := {|
  registry := None;
  labels := Some {|
    labelNames := ["a"; "b"; "a"];
    customizer := λ _,
      ([], Fulfilled (<["a" := VNum 1]> (<["b" := VNum 2]> (<["c" := VNum 3]> ∅))))
  |};
  processingTimeBuckets := None
|}.

Definition opts_ba : MetricsOpts string := {|
  registry := None;
  labels := Some {|
    labelNames := ["b"; "a"];
    customizer := λ _,
      ([], Fulfilled (<["a" := VNum 1]> (<["b" := VNum 2]> (<["c" := VNum 3]> ∅))))
  |};
  processingTimeBuckets := None
|}.

Definition opts_ba_small : MetricsOpts string := {|
  registry := None;
  labels := Some {|
    labelNames := ["b"; "a"];
    customizer := λ _, (["lookup"], Fulfilled (<["a" := VNum 1]> (<["b" := VNum 2]> ∅)))
  |};
  processingTimeBuckets := None
|}.

(** ["terminal"] is an allowed key and the customizer supplies it. *)
Definition opts_terminal : MetricsOpts string := {|
  registry := None;
  labels := Some {|
    labelNames := ["terminal"];
    customizer := λ _, ([], Fulfilled (<["terminal" := VStr "maybe"]> ∅))
  |};
  processingTimeBuckets := None
|}.

(** Names of [Object.prototype] in the allow-list, with a customizer that
    resolves with [{}], and with one that resolves with a record that has
    own properties [__proto__] and [toString]. *)
Definition opts_prototype_names : MetricsOpts string := {|
  registry := None;
  labels := Some {|
    labelNames := ["constructor"; "__proto__"; "a"];
    customizer := λ _, ([], Fulfilled ∅)
  |};
  processingTimeBuckets := None
|}.

Definition opts_own_proto : MetricsOpts string := {|
  registry := None;
  labels := Some {|
    labelNames := ["__proto__"; "toString"];
    customizer := λ _,
      ([], Fulfilled (<["__proto__" := VNum 1]> (<["toString" := VStr "s"]> ∅)))
  |};
  processingTimeBuckets := None
|}.

End MoreSamples.

(** ** Properties of the metrics middleware *)

Section MetricsProperties.

Context {D : Type}.
Implicit Types (opts : MetricsOpts D) (ctx : StorageContext) (clock : Clock).
Implicit Types (tr : list (event D)) (o : outcome unit) (ds : list D).

(** *** Reading traces *)

Lemma counter_increments_app name tr1 tr2 :
  counter_increments name (tr1 ++ tr2)
  = counter_increments name tr1 ++ counter_increments name tr2.
Proof. apply omap_app. Qed.

Lemma histogram_observations_app name tr1 tr2 :
  histogram_observations name (tr1 ++ tr2)
  = histogram_observations name tr1 ++ histogram_observations name tr2.
Proof. apply omap_app. Qed.

Lemma next_calls_app tr1 tr2 :
  next_calls (tr1 ++ tr2) = (next_calls tr1 + next_calls tr2)%nat.
Proof. unfold next_calls. by rewrite omap_app, length_app. Qed.

Lemma quiet_counter_increments name tr :
  Forall (λ ev, quiet ev = true) tr → counter_increments name tr = [].
Proof.
  induction 1 as [|ev tr Hev _ IH]; [done|].
  destruct ev; try discriminate; exact IH.
Qed.

Lemma quiet_histogram_observations name tr :
  Forall (λ ev, quiet ev = true) tr → histogram_observations name tr = [].
Proof.
  induction 1 as [|ev tr Hev _ IH]; [done|].
  destruct ev; try discriminate; exact IH.
Qed.

Lemma quiet_next_calls tr :
  Forall (λ ev, quiet ev = true) tr → next_calls tr = 0%nat.
Proof.
  induction 1 as [|ev tr Hev _ IH]; [done|].
  destruct ev; try discriminate; exact IH.
Qed.

Lemma quiet_not_recording tr :
  Forall (λ ev, quiet ev = true) tr → List.filter is_recording tr = [].
Proof.
  induction 1 as [|ev tr Hev _ IH]; [done|].
  destruct ev; try discriminate; exact IH.
Qed.

Lemma quiet_External ds : Forall (λ ev : event D, quiet ev = true) (External <$> ds).
Proof. induction ds; constructor; done. Qed.

(** *** [getLabels] *)

(** [getLabels] never rejects: its run is a trace and a label record. *)
Lemma getLabels_eq ctx opts failed :
  getLabels ctx opts failed
  = (labelsTrace ctx opts failed, Fulfilled (computedLabels ctx opts failed)).
Proof.
  unfold computedLabels, labelsTrace, getLabels, customized, logger_error.
  destruct (labels opts) as [l|]; [|reflexivity].
  destruct (customizer l ctx) as [ds [custom|e]]; [reflexivity|].
  destruct (logger ctx); reflexivity.
Qed.

Lemma labelsTrace_quiet ctx opts failed :
  Forall (λ ev, quiet ev = true) (labelsTrace ctx opts failed).
Proof.
  unfold labelsTrace, getLabels, customized, logger_error.
  destruct (labels opts) as [l|]; [|constructor].
  destruct (customizer l ctx) as [ds [custom|e]]; [|destruct (logger ctx)]; cbn;
    (constructor; [done|]); rewrite ?app_nil_r;
    try (apply Forall_app; split; [|repeat constructor]); apply quiet_External.
Qed.

Lemma get_prop_own (o : MetricRecord) (key : string) (v : value) :
  o !! key = Some v → get_prop o key = v.
Proof. intros H. unfold get_prop. by rewrite H. Qed.

Lemma set_prop_lookup (o : MetricRecord) (key k : string) (v : value) :
  set_prop o key v !! k
  = if decide (key = k ∧ k ≠ "__proto__") then Some v else o !! k.
Proof.
  unfold set_prop. destruct (String.eqb key "__proto__") eqn:Heq.
  - apply String.eqb_eq in Heq as ->.
    rewrite decide_False; [done|]. by intros [<- ?].
  - apply String.eqb_neq in Heq.
    destruct (decide (key = k)) as [<-|Hne].
    + by rewrite lookup_insert_eq, decide_True.
    + rewrite lookup_insert_ne by done. rewrite decide_False; [done|]. by intros [? _].
Qed.

(** The validated labels, key by key: a key is set exactly when it is an
    allowed key other than [__proto__] whose customized value is truthy. *)
Lemma foldl_validate_key_lookup (custom acc : MetricRecord) (keys : list string) (k : string) :
  foldl (validate_key custom) acc keys !! k
  = if decide (k ∈ keys ∧ truthy (get_prop custom k) = true ∧ k ≠ "__proto__")
    then Some (get_prop custom k)
    else acc !! k.
Proof.
  revert acc. induction keys as [|key keys IH]; intros acc; cbn.
  - case_decide as H; [|done]. destruct H as [H _]. by apply elem_of_nil in H.
  - rewrite IH. unfold validate_key.
    destruct (decide (k ∈ keys ∧ truthy (get_prop custom k) = true ∧ k ≠ "__proto__"))
      as [(Hin & Ht & Hp)|Hn].
    + rewrite decide_True; [done|]. split; [by right|done].
    + destruct (truthy (get_prop custom key)) eqn:Hkey.
      * rewrite set_prop_lookup.
        destruct (decide (key = k ∧ k ≠ "__proto__")) as [[-> Hp]|Hne].
        -- rewrite decide_True; [done|]. split; [by left|done].
        -- rewrite decide_False; [done|]. intros (Hin & Ht & Hp).
           apply elem_of_cons in Hin as [->|Hin]; [by apply Hne|by apply Hn].
      * rewrite decide_False; [done|]. intros (Hin & Ht & Hp).
        apply elem_of_cons in Hin as [->|Hin]; [congruence|]. by apply Hn.
Qed.

(** What the customizer resolved with, as [getLabels] reads it: the empty
    record when no labels are configured, nothing when it failed. *)
Lemma computedLabels_no_labels ctx opts failed :
  labels opts = None →
  computedLabels ctx opts failed = {[ "status" := VStr (status_of failed) ]}.
Proof.
  intros H. unfold computedLabels, getLabels, customized, allowedKeys.
  rewrite H. cbn. unfold spread. apply map_eq. intros k.
  by rewrite lookup_union_l by apply lookup_empty.
Qed.

Lemma computedLabels_rejected ctx opts failed l ds e :
  labels opts = Some l → customizer l ctx = (ds, Rejected e) →
  computedLabels ctx opts failed = {[ "status" := VStr (status_of failed) ]}.
Proof.
  intros H Hc. unfold computedLabels, getLabels, customized, logger_error.
  rewrite H. cbn. rewrite Hc. destruct (logger ctx); reflexivity.
Qed.

Lemma computedLabels_resolved ctx opts failed l ds custom :
  labels opts = Some l → customizer l ctx = (ds, Fulfilled custom) →
  computedLabels ctx opts failed
  = spread (foldl (validate_key custom) ∅ (labelNames l))
           {[ "status" := VStr (status_of failed) ]}.
Proof.
  intros H Hc. unfold computedLabels, getLabels, customized, allowedKeys.
  rewrite H. cbn. rewrite Hc. reflexivity.
Qed.

Lemma computedLabels_status ctx opts failed :
  computedLabels ctx opts failed !! "status" = Some (VStr (status_of failed)).
Proof.
  destruct (labels opts) as [l|] eqn:H.
  - destruct (customizer l ctx) as [ds [custom|e]] eqn:Hc.
    + rewrite (computedLabels_resolved _ _ _ _ _ _ H Hc). unfold spread.
      apply lookup_union_Some_l. apply lookup_singleton_eq.
    + rewrite (computedLabels_rejected _ _ _ _ _ _ H Hc). apply lookup_singleton_eq.
  - rewrite (computedLabels_no_labels _ _ _ H). apply lookup_singleton_eq.
Qed.

(** Every other key of the computed labels is an allowed key, other than
    [__proto__], under which the customizer's record reads truthy, and
    conversely; its value is what the record reads there. *)
Lemma computedLabels_other ctx opts failed k v :
  k ≠ "status" →
  computedLabels ctx opts failed !! k = Some v
  ↔ ∃ l ds custom,
      labels opts = Some l ∧ customizer l ctx = (ds, Fulfilled custom)
      ∧ k ∈ labelNames l ∧ get_prop custom k = v ∧ truthy v = true
      ∧ k ≠ "__proto__".
Proof.
  intros Hk. split.
  - destruct (labels opts) as [l|] eqn:H.
    + destruct (customizer l ctx) as [ds [custom|e]] eqn:Hc.
      * rewrite (computedLabels_resolved _ _ _ _ _ _ H Hc). unfold spread.
        rewrite lookup_union_r by (by apply lookup_singleton_ne).
        rewrite foldl_validate_key_lookup. case_decide as Hd; [|by rewrite lookup_empty].
        destruct Hd as (Hin & Ht & Hp). intros [= <-]. by exists l, ds, custom.
      * rewrite (computedLabels_rejected _ _ _ _ _ _ H Hc).
        by rewrite lookup_singleton_ne.
    + rewrite (computedLabels_no_labels _ _ _ H). by rewrite lookup_singleton_ne.
  - intros (l & ds & custom & H & Hc & Hin & Hv & Ht & Hp).
    rewrite (computedLabels_resolved _ _ _ _ _ _ H Hc). unfold spread.
    rewrite lookup_union_r by (by apply lookup_singleton_ne).
    rewrite foldl_validate_key_lookup. rewrite Hv.
    by rewrite decide_True.
Qed.

(** *** The handler *)

(** The run of the handler, spelled out. *)
Lemma metrics_eq opts ctx ds o clock :
  metrics opts ctx (ds, o) clock
  = let failure := failure_of o in
    let computed := computedLabels ctx opts (strict_ne_null failure) in
    ([CounterInc "vaas_processed_total" ∅; NextCalled]
       ++ (External <$> ds)
       ++ labelsTrace ctx opts (strict_ne_null failure)
       ++ [HistogramObserve "vaas_processing_duration" computed
             (now_after clock - now_before clock);
           CounterInc "vaas_finished_total"
             (if truthy failure
              then spread computed
                     {[ "terminal" := VStr (template_of_bool (reachedMaxAttempts ctx)) ]}
              else computed)],
     if truthy failure then Rejected failure else Fulfilled tt).
Proof.
  unfold metrics. destruct o as [[]|e]; cbn.
  - rewrite getLabels_eq. cbn. by rewrite !app_nil_r.
  - rewrite getLabels_eq. cbn. destruct (truthy e); cbn; by rewrite ?app_nil_r.
Qed.

(** What the handler hands back to its caller depends on the downstream
    outcome alone. *)
Lemma metrics_result opts ctx ds o clock :
  result (metrics opts ctx (ds, o) clock)
  = if truthy (failure_of o) then Rejected (failure_of o) else Fulfilled tt.
Proof. by rewrite metrics_eq. Qed.

(** A truthy failure (an [Error] object, a non-empty message, ...) is raised
    again, the same value. *)
Lemma metrics_reraises_truthy opts ctx ds e clock :
  truthy e = true → result (metrics opts ctx (ds, Rejected e) clock) = Rejected e.
Proof. intros H. rewrite metrics_result. cbn. by rewrite H. Qed.

(** A falsy one ([undefined], [null], [0], the empty string, [false], [NaN])
    is not: [if (failure)] takes the success branch. *)
Lemma metrics_returns_on_falsy opts ctx ds e clock :
  truthy e = false → result (metrics opts ctx (ds, Rejected e) clock) = Fulfilled tt.
Proof. intros H. rewrite metrics_result. cbn. by rewrite H. Qed.

Lemma metrics_returns_on_success opts ctx ds clock :
  result (metrics opts ctx (ds, Fulfilled tt) clock) = Fulfilled tt.
Proof. by rewrite metrics_result. Qed.

(** The duration histogram is observed exactly once, under the computed
    labels, whose status is ["failed"] when the captured failure is not
    [null]. *)
Lemma duration_observed_once opts ctx ds o clock :
  histogram_observations "vaas_processing_duration"
    (trace (metrics opts ctx (ds, o) clock))
  = [(computedLabels ctx opts (strict_ne_null (failure_of o)),
      now_after clock - now_before clock)].
Proof.
  rewrite metrics_eq. cbv zeta. unfold trace. cbn [fst].
  rewrite !histogram_observations_app.
  rewrite (quiet_histogram_observations _ _ (quiet_External ds)).
  rewrite (quiet_histogram_observations _ _ (labelsTrace_quiet _ _ _)).
  reflexivity.
Qed.

Lemma finished_incremented_once opts ctx ds o clock :
  counter_increments "vaas_finished_total" (trace (metrics opts ctx (ds, o) clock))
  = [if truthy (failure_of o)
     then spread (computedLabels ctx opts (strict_ne_null (failure_of o)))
            {[ "terminal" := VStr (template_of_bool (reachedMaxAttempts ctx)) ]}
     else computedLabels ctx opts (strict_ne_null (failure_of o))].
Proof.
  rewrite metrics_eq. cbv zeta. unfold trace. cbn [fst].
  rewrite !counter_increments_app.
  rewrite (quiet_counter_increments _ _ (quiet_External ds)).
  rewrite (quiet_counter_increments _ _ (labelsTrace_quiet _ _ _)).
  reflexivity.
Qed.

Lemma truthy_ne_null e : truthy e = true → strict_ne_null e = true.
Proof. by destruct e. Qed.

(** Every label set handed to prom-client only uses label names the metric
    was declared with, so [labels(...)] accepts it. *)
Lemma finished_labels_declared opts ctx ds o clock recorded k :
  recorded ∈ counter_increments "vaas_finished_total"
               (trace (metrics opts ctx (ds, o) clock)) →
  is_Some (recorded !! k) →
  k ∈ counter_labelNames (finishedVaasTotal opts).
Proof.
  rewrite finished_incremented_once. intros ->%list_elem_of_singleton [v Hv].
  cbn. unfold allowedKeys.
  destruct (decide (k = "status")) as [->|Hs]; [set_solver|].
  destruct (decide (k = "terminal")) as [->|Ht]; [set_solver|].
  assert (computedLabels ctx opts (strict_ne_null (failure_of o)) !! k = Some v) as Hc.
  { destruct (truthy (failure_of o)); [|done]. unfold spread in Hv.
    by rewrite lookup_union_r in Hv by (by apply lookup_singleton_ne). }
  apply computedLabels_other in Hc as (l & _ & _ & -> & _ & Hin & _); [|done].
  set_solver.
Qed.

Lemma duration_labels_declared opts ctx ds o clock observed time k :
  (observed, time) ∈ histogram_observations "vaas_processing_duration"
                       (trace (metrics opts ctx (ds, o) clock)) →
  is_Some (observed !! k) →
  k ∈ histogram_labelNames (processingDuration opts).
Proof.
  rewrite duration_observed_once. intros [= -> _]%list_elem_of_singleton [v Hv].
  cbn. unfold allowedKeys.
  destruct (decide (k = "status")) as [->|Hs]; [set_solver|].
  apply computedLabels_other in Hv as (l & _ & _ & -> & _ & Hin & _); [|done].
  set_solver.
Qed.

(** *** The claims about the handler and its labels *)

(** C2 (as amended).  When the downstream raises a truthy value (an [Error]
    object), [vaas_finished_total] is incremented exactly once, with the
    computed labels and a [terminal] label that is the stringified
    [(attempts ?? 0) === (maxAttempts ?? -1)]: it is [attempts ===
    maxAttempts] when both are set, false when the job or both fields are
    unset, and an unset [attempts] alone counts as 0, an unset [maxAttempts]
    alone as -1.  When the downstream succeeds the counter is incremented
    exactly once with exactly the computed labels: the handler adds no
    [terminal] label. *)
Theorem finished_total_terminal opts ctx ds o clock
    (Hraised : ∀ e, o = Rejected e → truthy e = true) :
  (∃ recorded,
     counter_increments "vaas_finished_total" (trace (metrics opts ctx (ds, o) clock))
     = [recorded]
     ∧ match o with
       | Rejected _ =>
           recorded = spread (computedLabels ctx opts true)
                        {[ "terminal" := VStr (template_of_bool (reachedMaxAttempts ctx)) ]}
           ∧ recorded !! "terminal"
             = Some (VStr (template_of_bool (reachedMaxAttempts ctx)))
       | Fulfilled _ =>
           recorded = computedLabels ctx opts false
           ∧ ("terminal" ∉ allowedKeys opts → recorded !! "terminal" = None)
       end)
  ∧ (∀ j a m, job (storage ctx) = Some j → attempts j = Some a → maxAttempts j = Some m →
       reachedMaxAttempts ctx = Z.eqb a m)
  ∧ (job (storage ctx) = None → reachedMaxAttempts ctx = false)
  ∧ (∀ j, job (storage ctx) = Some j → attempts j = None → maxAttempts j = None →
       reachedMaxAttempts ctx = false)
  ∧ (∀ j m, job (storage ctx) = Some j → attempts j = None → maxAttempts j = Some m →
       reachedMaxAttempts ctx = Z.eqb 0 m)
  ∧ (∀ j a, job (storage ctx) = Some j → attempts j = Some a → maxAttempts j = None →
       reachedMaxAttempts ctx = Z.eqb a (-1)).
Proof.
  split.
  - eexists. split; [apply finished_incremented_once|].
    destruct o as [[]|e]; cbn.
    + split; [done|]. intros Hnot.
      destruct (computedLabels ctx opts false !! "terminal") as [v|] eqn:Hv; [|done].
      apply computedLabels_other in Hv as (l & _ & _ & Hl & _ & Hin & _); [|done].
      exfalso. apply Hnot. unfold allowedKeys. by rewrite Hl.
    + rewrite (Hraised e eq_refl), (truthy_ne_null e (Hraised e eq_refl)).
      split; [done|]. unfold spread. apply lookup_union_Some_l, lookup_singleton_eq.
  - unfold reachedMaxAttempts.
    repeat split; intros;
      repeat match goal with H : _ = _ |- _ => rewrite H; clear H end; cbn;
      repeat match goal with H : _ = _ |- _ => rewrite H; clear H end; done.
Qed.

(** C3 (as amended).  If the label customizer raises an error or returns a
    rejected promise, [getLabels] still resolves, with exactly the default
    [{status}] labels; the error goes to [ctx.logger] when the context has
    one (with no logger it is dropped) and never reaches the caller; what
    the handler returns or raises, and every increment and observation it
    records, are those of the middleware configured with no labels. *)
Theorem customizer_failure_contained opts ctx l ds err
    (Hlabels : labels opts = Some l)
    (Hrejected : customizer l ctx = (ds, Rejected err)) :
  (∀ failed,
     getLabels ctx opts failed
     = (CustomizerCalled :: (External <$> ds)
          ++ match logger ctx with
             | Some _ => [LoggerError "Failed to customize metric labels, please review" err]
             | None => []
             end,
        Fulfilled {[ "status" := VStr (status_of failed) ]}))
  ∧ (∀ next clock,
       result (metrics opts ctx next clock)
       = result (metrics (without_labels opts) ctx next clock)
       ∧ List.filter is_recording (trace (metrics opts ctx next clock))
         = List.filter is_recording (trace (metrics (without_labels opts) ctx next clock))
       ∧ histogram_observations "vaas_processing_duration" (trace (metrics opts ctx next clock))
         = [({[ "status" := VStr (status_of (strict_ne_null (failure_of next.2))) ]},
             now_after clock - now_before clock)]).
Proof.
  split.
  - intros failed. unfold getLabels, customized, logger_error.
    rewrite Hlabels. cbn. rewrite Hrejected. destruct (logger ctx); reflexivity.
  - intros [ds' o] clock.
    assert (∀ failed, computedLabels ctx opts failed
                      = computedLabels ctx (without_labels opts) failed) as Heq.
    { intros failed. rewrite (computedLabels_rejected _ _ _ _ _ _ Hlabels Hrejected).
      by rewrite computedLabels_no_labels. }
    split; [by rewrite !metrics_result|]. split.
    + rewrite !metrics_eq. cbv zeta. unfold trace. cbn [fst].
      rewrite !List.filter_app.
      rewrite !(quiet_not_recording _ (labelsTrace_quiet _ _ _)).
      by rewrite Heq.
    + rewrite duration_observed_once.
      by rewrite (computedLabels_rejected _ _ _ _ _ _ Hlabels Hrejected).
Qed.


(** C6.  On every invocation [vaas_processed_total] is incremented exactly
    once, and that increment is the first effect of the handler: it comes
    before [next()] is called, so before every downstream effect, whatever
    the outcome. *)
Theorem processed_total_once_before_next opts ctx next clock :
  counter_increments "vaas_processed_total" (trace (metrics opts ctx next clock)) = [∅]
  ∧ ∃ post,
      trace (metrics opts ctx next clock)
      = CounterInc (counter_name (processedVaasTotal opts)) ∅
          :: NextCalled :: (External <$> next.1) ++ post
      ∧ counter_increments "vaas_processed_total" post = [].
Proof.
  destruct next as [ds o]. rewrite metrics_eq. cbv zeta. unfold trace. cbn [fst].
  split.
  - rewrite !counter_increments_app.
    rewrite (quiet_counter_increments _ _ (quiet_External ds)).
    by rewrite (quiet_counter_increments _ _ (labelsTrace_quiet _ _ _)).
  - eexists. split; [reflexivity|].
    rewrite counter_increments_app.
    by rewrite (quiet_counter_increments _ _ (labelsTrace_quiet _ _ _)).
Qed.

(** C9.  An allowed key that the customizer resolved with a falsy value (0,
    the empty string, false, null) is dropped: the customizer's value is in
    the computed labels only if it is truthy, and for a key other than
    [status] and [__proto__] exactly if it is truthy ([__proto__] is never
    kept: assigning it creates no property). *)
Theorem falsy_allowed_labels_dropped opts ctx failed l ds custom k v
    (Hlabels : labels opts = Some l)
    (Hresolved : customizer l ctx = (ds, Fulfilled custom))
    (Hallowed : k ∈ labelNames l)
    (Hvalue : custom !! k = Some v) :
  ∃ computed,
    result (getLabels ctx opts failed) = Fulfilled computed
    ∧ (computed !! k = Some v → truthy v = true)
    ∧ (k ≠ "status" → k ≠ "__proto__" → truthy v = true → computed !! k = Some v)
    ∧ (k = "__proto__" → computed !! k = None)
    ∧ (k ≠ "status" → truthy v = false → computed !! k = None)
    ∧ (v ∈ [VNum 0; VStr ""; VBool false; VNull] → computed !! k ≠ Some v).
Proof.
  exists (computedLabels ctx opts failed).
  assert (computedLabels ctx opts failed !! k = Some v → truthy v = true) as Honly.
  { destruct (decide (k = "status")) as [->|Hk].
    - rewrite computedLabels_status. intros [= <-]. by destruct failed.
    - intros Hv.
      by apply computedLabels_other in Hv as (? & ? & ? & _ & _ & _ & _ & ? & _). }
  split; [by rewrite getLabels_eq|]. split; [exact Honly|].
  split; [|split; [|split]].
  - intros Hk Hp Ht. apply computedLabels_other; [done|]. exists l, ds, custom.
    by rewrite (get_prop_own _ _ _ Hvalue).
  - intros ->.
    destruct (computedLabels ctx opts failed !! "__proto__") as [w|] eqn:Hw; [|done].
    by apply computedLabels_other in Hw as (? & ? & ? & _ & _ & _ & _ & _ & ?).
  - intros Hk Hf.
    destruct (computedLabels ctx opts failed !! k) as [w|] eqn:Hw; [|done].
    apply computedLabels_other in Hw
      as (l' & ds' & custom' & Hl' & Hc' & _ & Hw & Ht & _); [|done].
    rewrite Hlabels in Hl'. injection Hl' as <-. rewrite Hresolved in Hc'.
    injection Hc' as <- <-. rewrite (get_prop_own _ _ _ Hvalue) in Hw. congruence.
  - intros Hin Hv. apply Honly in Hv.
    repeat (apply elem_of_cons in Hin as [->|Hin]; [discriminate|]).
    by apply elem_of_nil in Hin.
Qed.

(** C10.  For every configuration the handler calls [next()] exactly once,
    whatever happens; before the call it only increments the processed
    counter; the label computation, the histogram observation and the
    finished increment all come after the downstream has settled. *)
Theorem next_called_once_recording_after opts ctx next clock :
  next_calls (trace (metrics opts ctx next clock)) = 1%nat
  ∧ ∃ computed recorded,
      let post :=
        trace (getLabels ctx opts (strict_ne_null (failure_of next.2)))
          ++ [HistogramObserve (histogram_name (processingDuration opts)) computed
                (now_after clock - now_before clock);
              CounterInc (counter_name (finishedVaasTotal opts)) recorded] in
      trace (metrics opts ctx next clock)
      = [CounterInc (counter_name (processedVaasTotal opts)) ∅; NextCalled]
          ++ (External <$> next.1) ++ post
      ∧ next_calls post = 0%nat
      ∧ List.filter is_recording (trace (metrics opts ctx next clock))
        = CounterInc (counter_name (processedVaasTotal opts)) ∅
            :: List.filter is_recording post.
Proof.
  destruct next as [ds o]. rewrite metrics_eq. cbv zeta. cbn [fst snd].
  pose proof (labelsTrace_quiet ctx opts (strict_ne_null (failure_of o))) as Hquiet.
  unfold labelsTrace in *. change (trace (?a, ?b)) with a.
  split.
  - rewrite !next_calls_app.
    rewrite (quiet_next_calls _ (quiet_External ds)).
    by rewrite (quiet_next_calls _ Hquiet).
  - eexists _, _. split; [reflexivity|]. split.
    + rewrite next_calls_app. by rewrite (quiet_next_calls _ Hquiet).
    + rewrite !List.filter_app.
      by rewrite (quiet_not_recording _ (quiet_External ds)).
Qed.

End MetricsProperties.

(** *** The handler on concrete jobs *)

Section MetricsExamples.

Import Samples.

(** The filtering example of the specification: [labelNames = ["a"]], the
    customizer returns [{a: 1, b: 2}]. *)
Example getLabels_filters_b :
  getLabels ctx_no_job opts_a_b false
  = ([CustomizerCalled; External "customize"],
     Fulfilled (<["a" := VNum 1]> {[ "status" := VStr "succeeded" ]})).
Proof. reflexivity. Qed.

(** The terminal scenarios of the specification. *)
Example terminal_true_at_3_of_3 :
  counter_increments "vaas_finished_total"
    (trace (metrics no_opts (ctx_of (Some 3) (Some 3) None) next_raises_error clock_5ms))
  = [<["terminal" := VStr "true"]> {[ "status" := VStr "failed" ]}].
Proof. reflexivity. Qed.

Example terminal_false_at_1_of_3 :
  counter_increments "vaas_finished_total"
    (trace (metrics no_opts (ctx_of (Some 1) (Some 3) None) next_raises_error clock_5ms))
  = [<["terminal" := VStr "false"]> {[ "status" := VStr "failed" ]}].
Proof. reflexivity. Qed.

Example falsy_labels_example :
  result (getLabels ctx_no_job opts_falsy true)
  = Fulfilled (<["a" := VNum 1]> {[ "status" := VStr "failed" ]}).
Proof. reflexivity. Qed.

(** C1.  The downstream raises [undefined] (a promise rejected with no
    reason): the handler records the attempt as failed, then takes the
    success branch of [if (failure)] and returns normally; the failure does
    not reach the caller. *)
Theorem metrics_swallows_undefined_failure :
  metrics no_opts (ctx_of (Some 3) (Some 3) None) next_raises_undefined clock_5ms
  = ([CounterInc "vaas_processed_total" ∅;
      NextCalled;
      External "handle";
      HistogramObserve "vaas_processing_duration" {[ "status" := VStr "failed" ]} 5;
      CounterInc "vaas_finished_total" {[ "status" := VStr "failed" ]}],
     Fulfilled tt).
Proof. reflexivity. Qed.

(** C5.  The downstream raises [null]: [failure] keeps the value it was
    initialised with, so the one observation of the histogram is labelled
    ["succeeded"] although the downstream raised (and nothing is raised
    again). *)
Theorem duration_status_succeeded_on_null_failure :
  histogram_observations "vaas_processing_duration"
    (trace (metrics no_opts (ctx_of (Some 1) (Some 3) None) next_raises_null clock_5ms))
  = [({[ "status" := VStr "succeeded" ]}, 5)]
  ∧ result (metrics no_opts (ctx_of (Some 1) (Some 3) None) next_raises_null clock_5ms)
    = Fulfilled tt.
Proof. split; reflexivity. Qed.

(** Against C2 as stated: [attempts] is unset, [maxAttempts] is 0 and the
    downstream raises an error; the terminal label is ["true"], not the
    ["false"] the claim gives for an unset field. *)
Lemma terminal_true_with_unset_attempts :
  ¬ ∃ recorded,
      counter_increments "vaas_finished_total"
        (trace (metrics no_opts (ctx_of None (Some 0) None) next_raises_error clock_5ms))
      = [recorded]
      ∧ recorded !! "terminal"
        = Some (VStr (template_of_bool (spec_terminal (ctx_of None (Some 0) None)))).
Proof.
  intros (recorded & Hinc & Hterminal).
  vm_compute in Hinc. injection Hinc as <-.
  vm_compute in Hterminal. discriminate.
Qed.

(** Against C3 as stated: the context has no logger and the customizer
    rejects; nothing is logged. *)
Lemma customizer_error_not_logged_without_logger :
  ¬ VObj 7 ∈ logged_errors
               (trace (metrics opts_rejecting ctx_no_job next_returns clock_5ms)).
Proof.
  change (logged_errors _) with (@nil value). apply not_elem_of_nil.
Qed.

Lemma finished_total_terminal_witness :
  (∀ e, Rejected (A := unit) (VObj 0) = Rejected e → truthy e = true)
  ∧ ∃ recorded,
      counter_increments "vaas_finished_total"
        (trace (metrics no_opts (ctx_of (Some 3) (Some 3) None) next_raises_error clock_5ms))
      = [recorded]
      ∧ recorded !! "terminal" = Some (VStr "true").
Proof.
  assert (∀ e, Rejected (A := unit) (VObj 0) = Rejected e → truthy e = true) as Hraised.
  { intros e [= <-]. reflexivity. }
  split; [exact Hraised|].
  destruct (finished_total_terminal no_opts (ctx_of (Some 3) (Some 3) None)
              ["handle"] (Rejected (VObj 0)) clock_5ms Hraised)
    as [(recorded & Hinc & _ & Hterminal) _].
  exists recorded. split; [exact Hinc|exact Hterminal].
Defined.

Lemma customizer_failure_contained_witness :
  getLabels (ctx_of (Some 1) (Some 3) (Some StructuredLogger)) opts_rejecting true
  = ([CustomizerCalled; External "customize";
      LoggerError "Failed to customize metric labels, please review" (VObj 7)],
     Fulfilled {[ "status" := VStr "failed" ]}).
Proof.
  apply (customizer_failure_contained opts_rejecting
           (ctx_of (Some 1) (Some 3) (Some StructuredLogger))
           {| labelNames := ["a"];
              customizer := λ _, (["customize"], Rejected (VObj 7)) |}
           ["customize"] (VObj 7)); reflexivity.
Defined.

Lemma falsy_allowed_labels_dropped_witness :
  ∃ computed,
    result (getLabels ctx_no_job opts_falsy true) = Fulfilled computed
    ∧ computed !! "z" = None.
Proof.
  destruct (falsy_allowed_labels_dropped opts_falsy ctx_no_job true
              {| labelNames := ["a"; "z"; "e"; "f"; "n"];
                 customizer := λ _,
                   ([], Fulfilled (<["a" := VNum 1]> (<["z" := VNum 0]> (<["e" := VStr ""]>
                          (<["f" := VBool false]> (<["n" := VNull]> ∅)))))) |}
              [] _ "z" (VNum 0) eq_refl eq_refl)
    as (computed & Hres & _ & _ & _ & Hdrop & _).
  - cbn. do 1 right. left.
  - reflexivity.
  - exists computed. split; [exact Hres|]. apply Hdrop; [discriminate|reflexivity].
Defined.

End MetricsExamples.

(** ** Properties of the action executor *)

Section ExecutorProperties.

Import Executor.

Context {T E : Type}.
Implicit Types (resolve : ChainId → outcome WalletToolBox) (action : Action T E).

Lemma execute_resolved_eq resolve action toolBox :
  resolve (chainId action) = Fulfilled toolBox →
  execute resolve action
  = (Invoked toolBox (chainId action)
       :: (Effect <$> (f action toolBox (chainId action)).1),
     (f action toolBox (chainId action)).2).
Proof.
  intros H. unfold execute. rewrite H.
  by destruct (f action toolBox (chainId action)).
Qed.

Lemma invocations_Effect (effects : list E) :
  invocations (Effect <$> effects) = 0%nat.
Proof. induction effects; [done|exact IHeffects]. Qed.


(** C8.  With a resolvable toolbox, [execute] calls [action.f(toolBox,
    action.chainId)] exactly once and hands back what it produced: the value
    it returned, or the error it raised, unchanged. *)
Theorem execute_resolved resolve action toolBox effects o
    (Hsome : resolve (chainId action) = Fulfilled toolBox)
    (Hrun : f action toolBox (chainId action) = (effects, o)) :
  execute resolve action
  = (Invoked toolBox (chainId action) :: (Effect <$> effects), o)
  ∧ invocations (execute resolve action).1 = 1%nat
  ∧ (∀ t, o = Fulfilled t → (execute resolve action).2 = Fulfilled t)
  ∧ (∀ e, o = Rejected e → (execute resolve action).2 = Rejected e).
Proof.
  rewrite (execute_resolved_eq _ _ _ Hsome), Hrun. cbn.
  split; [done|]. split.
  - unfold invocations. cbn. f_equal. apply invocations_Effect.
  - split; by intros ? ->.
Qed.

End ExecutorProperties.

Section ExecutorExamples.

Import Executor Samples.



Lemma execute_resolved_witness :
  execute resolve_chain_2 (revert_on 2)
  = ([Invoked evm_toolbox 2; Effect "sendTransaction"], Rejected (VStr "reverted")).
Proof.
  apply (execute_resolved resolve_chain_2 (revert_on 2) evm_toolbox
           ["sendTransaction"] (Rejected (VStr "reverted"))); reflexivity.
Defined.

Example execute_returns_hash :
  execute resolve_chain_2 (submit_on 2)
  = ([Invoked evm_toolbox 2; Effect "sendTransaction"], Fulfilled "0xhash").
Proof. reflexivity. Qed.

Example execute_attempted_differs :
  (execute resolve_chain_2 (revert_on 2)).2 ≠ (execute resolve_chain_2 (submit_on 5)).2.
Proof. discriminate. Qed.

End ExecutorExamples.

(** ** More about the metrics middleware *)

Section MetricsCoverage.

Context {D : Type}.
Implicit Types (opts : MetricsOpts D) (ctx : StorageContext) (clock : Clock).
Implicit Types (tr : list (event D)) (o : outcome unit) (ds : list D).

(** *** Helpers *)

Lemma logged_errors_app tr1 tr2 :
  logged_errors (tr1 ++ tr2) = logged_errors tr1 ++ logged_errors tr2.
Proof. apply omap_app. Qed.

Lemma logged_errors_External ds : logged_errors (D := D) (External <$> ds) = [].
Proof. induction ds; [done|exact IHds]. Qed.

Lemma customizer_calls_app tr1 tr2 :
  customizer_calls (tr1 ++ tr2) = (customizer_calls tr1 + customizer_calls tr2)%nat.
Proof. unfold customizer_calls. by rewrite omap_app, length_app. Qed.

Lemma customizer_calls_External ds : customizer_calls (D := D) (External <$> ds) = 0%nat.
Proof. induction ds; [done|exact IHds]. Qed.

(** The effects of [getLabels]: the call of the customizer, the
    customizer's own effects, and the log entry of the [catch]. *)
Lemma labelsTrace_eq ctx opts failed :
  labelsTrace ctx opts failed
  = match labels opts with
    | None => []
    | Some l =>
        CustomizerCalled :: (External <$> (customizer l ctx).1)
          ++ match (customizer l ctx).2, logger ctx with
             | Rejected e, Some _ =>
                 [LoggerError "Failed to customize metric labels, please review" e]
             | _, _ => []
             end
    end.
Proof.
  unfold labelsTrace, getLabels, customized, logger_error.
  destruct (labels opts) as [l|]; [|reflexivity].
  destruct (customizer l ctx) as [ds' [custom|e]]; [|destruct (logger ctx)];
    cbn; by rewrite ?app_nil_r.
Qed.

(** The validated labels only depend on which keys are allowed and on the
    customized values of those keys. *)
Lemma validated_labels_ext (c1 c2 : MetricRecord) (keys1 keys2 : list string) :
  (∀ k, k ∈ keys1 ↔ k ∈ keys2) →
  (∀ k, k ∈ keys1 → c1 !! k = c2 !! k) →
  foldl (validate_key c1) ∅ keys1 = foldl (validate_key c2) ∅ keys2.
Proof.
  intros Hkeys Hvals. apply map_eq. intros k.
  rewrite !foldl_validate_key_lookup.
  destruct (decide (k ∈ keys1)) as [Hin|Hout].
  - assert (get_prop c1 k = get_prop c2 k) as Hget.
    { unfold get_prop. by rewrite (Hvals k Hin). }
    rewrite Hget. apply Hkeys in Hin.
    destruct (decide (truthy (get_prop c2 k) = true ∧ k ≠ "__proto__")) as [Hyes|Hno].
    + rewrite !decide_True; [done|by split|split; [by apply Hkeys|done]].
    + rewrite !decide_False; [done|by intros [_ ?]|by intros [_ ?]].
  - rewrite !decide_False; [done| |by intros [? _]].
    intros [Hin _]. by apply Hout, Hkeys.
Qed.

Lemma processed_incremented_once opts ctx ds o clock :
  counter_increments "vaas_processed_total" (trace (metrics opts ctx (ds, o) clock)) = [∅].
Proof.
  rewrite metrics_eq. cbv zeta. unfold trace. cbn [fst].
  rewrite !counter_increments_app.
  rewrite (quiet_counter_increments _ _ (quiet_External ds)).
  by rewrite (quiet_counter_increments _ _ (labelsTrace_quiet _ _ _)).
Qed.

(** *** What the handler records *)

(** X1.  Every label set the handler hands to prom-client only uses label
    names the metric was declared with: the processed counter is incremented
    with no labels, the keys of the observation are among the histogram's
    [labelNames], the keys of the finished increment among the finished
    counter's. *)
Theorem recorded_labels_are_declared opts ctx next clock :
  (∀ recorded,
     recorded ∈ counter_increments (counter_name (processedVaasTotal opts))
                  (trace (metrics opts ctx next clock)) →
     recorded = ∅)
  ∧ (∀ observed time k,
       (observed, time) ∈ histogram_observations (histogram_name (processingDuration opts))
                            (trace (metrics opts ctx next clock)) →
       is_Some (observed !! k) →
       k ∈ histogram_labelNames (processingDuration opts))
  ∧ (∀ recorded k,
       recorded ∈ counter_increments (counter_name (finishedVaasTotal opts))
                    (trace (metrics opts ctx next clock)) →
       is_Some (recorded !! k) →
       k ∈ counter_labelNames (finishedVaasTotal opts)).
Proof.
  destruct next as [ds o]. split; [|split].
  - intros recorded. cbn [counter_name processedVaasTotal].
    rewrite processed_incremented_once. by intros ->%list_elem_of_singleton.
  - intros observed time k. apply duration_labels_declared.
  - intros recorded k. apply finished_labels_declared.
Qed.

(** X2.  Every invocation makes exactly three calls to prom-client, in this
    order: the processed increment, the duration observation with the elapsed
    time under the labels [getLabels] computed, the finished increment; the
    labels of the finished increment are those of the observation on every
    key but [terminal]. *)
Theorem three_recordings_in_order opts ctx next clock :
  ∃ computed recorded,
    List.filter is_recording (trace (metrics opts ctx next clock))
    = [CounterInc "vaas_processed_total" ∅;
       HistogramObserve "vaas_processing_duration" computed
         (now_after clock - now_before clock);
       CounterInc "vaas_finished_total" recorded]
    ∧ result (getLabels ctx opts (strict_ne_null (failure_of next.2))) = Fulfilled computed
    ∧ (∀ k, k ≠ "terminal" → recorded !! k = computed !! k).
Proof.
  destruct next as [ds o]. eexists _, _. split; [|split].
  - rewrite metrics_eq. cbv zeta. unfold trace. cbn [fst].
    rewrite !List.filter_app.
    rewrite (quiet_not_recording _ (quiet_External ds)).
    rewrite (quiet_not_recording _ (labelsTrace_quiet _ _ _)).
    reflexivity.
  - by rewrite getLabels_eq.
  - intros k Hk. cbn [snd]. destruct (truthy (failure_of o)); [|done].
    unfold spread. by rewrite lookup_union_r by (by apply lookup_singleton_ne).
Qed.

(** X3.  The handler never raises a value of its own: it rejects with [e]
    exactly when the downstream rejected with [e] and [e] is truthy. *)
Theorem metrics_raises_only_downstream_failure opts ctx next clock e :
  result (metrics opts ctx next clock) = Rejected e
  ↔ next.2 = Rejected e ∧ truthy e = true.
Proof.
  destruct next as [ds o]. rewrite metrics_result. cbn [snd].
  destruct o as [[]|e']; cbn.
  - split; [discriminate|]. by intros [? _].
  - destruct (truthy e') eqn:Ht.
    + split; [by intros [= ->]|by intros [[= ->] _]].
    + split; [discriminate|]. intros [[= ->] ?]. congruence.
Qed.

(** X4.  What the handler hands back to its caller is the same for all
    options, contexts and clock readings: the labels, the customizer, the
    logger, the job and the elapsed time never change the outcome of the
    attempt. *)
Theorem metrics_outcome_independent_of_configuration
    opts opts' ctx ctx' clock clock' next :
  result (metrics opts ctx next clock) = result (metrics opts' ctx' next clock').
Proof. destruct next as [ds o]. by rewrite !metrics_result. Qed.

(** X5.  When labels are configured the customizer is called exactly once
    per invocation, after the downstream has settled and before anything but
    the processed increment is recorded; when no labels are configured it is
    never called. *)
Theorem customizer_called_once_after_next opts ctx next clock :
  match labels opts with
  | Some l =>
      customizer_calls (trace (metrics opts ctx next clock)) = 1%nat
      ∧ ∃ post,
          trace (metrics opts ctx next clock)
          = [CounterInc "vaas_processed_total" ∅; NextCalled]
              ++ (External <$> next.1)
              ++ CustomizerCalled :: (External <$> (customizer l ctx).1) ++ post
          ∧ customizer_calls post = 0%nat
          ∧ (∀ ev, ev ∈ post → ev ≠ NextCalled)
  | None => customizer_calls (trace (metrics opts ctx next clock)) = 0%nat
  end.
Proof.
  destruct next as [ds o]. rewrite metrics_eq. cbv zeta. unfold trace. cbn [fst].
  rewrite labelsTrace_eq. destruct (labels opts) as [l|].
  - split.
    + rewrite !customizer_calls_app, !customizer_calls_External.
      change (customizer_calls (CustomizerCalled :: ?t)) with (S (customizer_calls t)).
      rewrite !customizer_calls_app, customizer_calls_External.
      by destruct (customizer l ctx).2, (logger ctx).
    + eexists. split.
      { do 2 f_equal. rewrite <- app_comm_cons. f_equal. by rewrite <- app_assoc. }
      split.
      * rewrite customizer_calls_app. by destruct (customizer l ctx).2, (logger ctx).
      * intros ev Hev Heq. subst ev.
        destruct (customizer l ctx).2, (logger ctx); cbn in Hev;
          repeat (apply elem_of_cons in Hev as [Hev|Hev]; [discriminate|]);
          by apply elem_of_nil in Hev.
  - rewrite !customizer_calls_app, customizer_calls_External. reflexivity.
Qed.

(** X6.  The middleware writes to the logger at most once per invocation,
    and only the customizer's error: a failure of the downstream is never
    logged by it, nor is anything logged when the customizer resolves or
    the context has no logger. *)
Theorem only_customizer_error_logged opts ctx next clock :
  logged_errors (trace (metrics opts ctx next clock))
  = match labels opts, logger ctx with
    | Some l, Some _ =>
        match (customizer l ctx).2 with
        | Rejected e => [e]
        | Fulfilled _ => []
        end
    | _, _ => []
    end.
Proof.
  destruct next as [ds o]. rewrite metrics_eq. cbv zeta. unfold trace. cbn [fst].
  rewrite labelsTrace_eq, !logged_errors_app, logged_errors_External.
  destruct (labels opts) as [l|]; [|reflexivity].
  change (logged_errors (CustomizerCalled :: ?t)) with (logged_errors t).
  rewrite logged_errors_app, logged_errors_External.
  by destruct (customizer l ctx).2, (logger ctx).
Qed.

(** *** What the computed labels depend on *)

(** X7.  The order of the allow-list and repetitions in it do not matter:
    two configurations with the same customizer whose [labelNames] have the
    same members make [getLabels] behave the same. *)
Theorem labels_independent_of_allow_list_order opts1 opts2 ctx failed l1 l2
    (Hlabels1 : labels opts1 = Some l1)
    (Hlabels2 : labels opts2 = Some l2)
    (Hcustomizer : customizer l1 ctx = customizer l2 ctx)
    (Hmembers : ∀ k, k ∈ labelNames l1 ↔ k ∈ labelNames l2) :
  getLabels ctx opts1 failed = getLabels ctx opts2 failed.
Proof.
  assert (∃ ds r, customizer l1 ctx = (ds, r) ∧ customizer l2 ctx = (ds, r))
    as (ds & r & Hc1 & Hc2).
  { rewrite Hcustomizer. destruct (customizer l2 ctx) as [ds r]. by exists ds, r. }
  rewrite !getLabels_eq, !labelsTrace_eq, Hlabels1, Hlabels2, Hc1, Hc2.
  f_equal. f_equal.
  destruct r as [custom|e].
  - rewrite (computedLabels_resolved _ _ _ _ _ _ Hlabels1 Hc1).
    rewrite (computedLabels_resolved _ _ _ _ _ _ Hlabels2 Hc2).
    f_equal. by apply validated_labels_ext.
  - rewrite (computedLabels_rejected _ _ _ _ _ _ Hlabels1 Hc1).
    by rewrite (computedLabels_rejected _ _ _ _ _ _ Hlabels2 Hc2).
Qed.

(** X8.  What the customizer returns under keys that are not allowed has no
    influence: two customizers that resolve with records agreeing on the
    allowed keys give the same computed labels. *)
Theorem labels_independent_of_dropped_keys opts1 opts2 ctx failed l1 l2 ds1 ds2 c1 c2
    (Hlabels1 : labels opts1 = Some l1)
    (Hlabels2 : labels opts2 = Some l2)
    (Hresolved1 : customizer l1 ctx = (ds1, Fulfilled c1))
    (Hresolved2 : customizer l2 ctx = (ds2, Fulfilled c2))
    (Hnames : labelNames l1 = labelNames l2)
    (Hagree : ∀ k, k ∈ labelNames l1 → c1 !! k = c2 !! k) :
  result (getLabels ctx opts1 failed) = result (getLabels ctx opts2 failed).
Proof.
  rewrite !getLabels_eq. unfold result. cbn [snd]. f_equal.
  rewrite (computedLabels_resolved _ _ _ _ _ _ Hlabels1 Hresolved1).
  rewrite (computedLabels_resolved _ _ _ _ _ _ Hlabels2 Hresolved2).
  f_equal. apply validated_labels_ext; [by rewrite Hnames|done].
Qed.

Lemma foldl_validate_key_size (custom acc : MetricRecord) (keys : list string) :
  (size (foldl (validate_key custom) acc keys) ≤ size acc + length keys)%nat.
Proof.
  revert acc. induction keys as [|key keys IH]; intros acc; cbn; [lia|].
  etrans; [apply IH|]. unfold validate_key.
  destruct (truthy (get_prop custom key)); [|lia].
  unfold set_prop. destruct (String.eqb key "__proto__"); [lia|].
  rewrite map_size_insert. destruct (acc !! key); unfold id; lia.
Qed.

(** X9.  The computed labels hold [status] and at most one label per entry
    of the allow-list: between 1 and [1 + labelNames.length] labels. *)
Theorem computed_labels_size opts ctx failed :
  ∃ computed,
    result (getLabels ctx opts failed) = Fulfilled computed
    ∧ (1 ≤ size computed ≤ 1 + length (allowedKeys opts))%nat.
Proof.
  exists (computedLabels ctx opts failed). split; [by rewrite getLabels_eq|].
  unfold allowedKeys.
  destruct (labels opts) as [l|] eqn:Hl.
  - destruct (customizer l ctx) as [ds [custom|e]] eqn:Hc.
    + rewrite (computedLabels_resolved _ _ _ _ _ _ Hl Hc). unfold spread.
      rewrite <- insert_union_singleton_l, map_size_insert.
      pose proof (foldl_validate_key_size custom ∅ (labelNames l)) as Hsize.
      rewrite map_size_empty in Hsize.
      destruct (foldl (validate_key custom) ∅ (labelNames l) !! "status") eqn:Hs;
        unfold id; [|lia].
      split; [|lia]. apply Nat.le_succ_l, Nat.neq_0_lt_0.
      intros Hz%map_size_empty_inv. by rewrite Hz, lookup_empty in Hs.
    + rewrite (computedLabels_rejected _ _ _ _ _ _ Hl Hc), map_size_singleton. lia.
  - rewrite (computedLabels_no_labels _ _ _ Hl), map_size_singleton. cbn. lia.
Qed.

(** *** The terminal label *)

(** X10.  Unless the allow-list itself names [terminal], the finished
    increment carries a [terminal] label exactly when the handler raises the
    failure again; the label then is ["true"] or ["false"] and the status is
    ["failed"]. *)
Theorem terminal_label_iff_reraised opts ctx next clock
    (Hnot_allowed : "terminal" ∉ allowedKeys opts) :
  ∃ recorded,
    counter_increments "vaas_finished_total" (trace (metrics opts ctx next clock))
    = [recorded]
    ∧ (is_Some (recorded !! "terminal")
       ↔ ∃ e, result (metrics opts ctx next clock) = Rejected e)
    ∧ (∀ v, recorded !! "terminal" = Some v →
         (v = VStr "true" ∨ v = VStr "false")
         ∧ recorded !! "status" = Some (VStr "failed")).
Proof.
  destruct next as [ds o]. eexists. split; [apply finished_incremented_once|].
  rewrite metrics_result.
  assert (∀ failed, computedLabels ctx opts failed !! "terminal" = None) as Hnone.
  { intros failed.
    destruct (computedLabels ctx opts failed !! "terminal") as [v|] eqn:Hv; [|done].
    apply computedLabels_other in Hv as (l & _ & _ & Hl & _ & Hin & _); [|done].
    exfalso. apply Hnot_allowed. unfold allowedKeys. by rewrite Hl. }
  destruct (truthy (failure_of o)) eqn:Ht.
  - unfold spread. rewrite (lookup_union_Some_l _ _ _ _ (lookup_singleton_eq _ _)).
    split; [split; eauto|].
    intros v [= <-]. split; [destruct (reachedMaxAttempts ctx); [by left|by right]|].
    rewrite lookup_union_r by (by apply lookup_singleton_ne).
    by rewrite computedLabels_status, (truthy_ne_null _ Ht).
  - rewrite Hnone. split; [|discriminate].
    split; [by intros [? ?]|by intros [? ?]].
Qed.

(** X11.  When [terminal] is an allowed key and the customizer resolves it
    with a truthy value, that value labels the duration observation, and it
    labels the finished increment too unless the failure is raised again, in
    which case the engine's stringified flag replaces it. *)
Theorem customizer_terminal_replaced_on_failure opts ctx next clock l ds custom v
    (Hlabels : labels opts = Some l)
    (Hresolved : customizer l ctx = (ds, Fulfilled custom))
    (Hallowed : "terminal" ∈ labelNames l)
    (Hvalue : custom !! "terminal" = Some v)
    (Htruthy : truthy v = true) :
  ∃ observed recorded,
    histogram_observations "vaas_processing_duration" (trace (metrics opts ctx next clock))
    = [(observed, now_after clock - now_before clock)]
    ∧ counter_increments "vaas_finished_total" (trace (metrics opts ctx next clock))
      = [recorded]
    ∧ observed !! "terminal" = Some v
    ∧ recorded !! "terminal"
      = Some (if truthy (failure_of next.2)
              then VStr (template_of_bool (reachedMaxAttempts ctx))
              else v).
Proof.
  destruct next as [ds' o]. eexists _, _.
  split; [apply duration_observed_once|]. split; [apply finished_incremented_once|].
  assert (∀ failed, computedLabels ctx opts failed !! "terminal" = Some v) as Hkept.
  { intros failed. apply computedLabels_other; [done|]. exists l, ds, custom.
    by rewrite (get_prop_own _ _ _ Hvalue). }
  split; [apply Hkept|]. cbn [snd].
  destruct (truthy (failure_of o)); [|apply Hkept].
  unfold spread. apply lookup_union_Some_l, lookup_singleton_eq.
Qed.

(** X12.  The flag behind the terminal label is true in exactly three
    cases: [attempts] and [maxAttempts] are both set and equal; [attempts] is
    unset and [maxAttempts] is 0; [attempts] is -1 and [maxAttempts] is unset.
    With no job, or with both unset, it is false. *)
Theorem reachedMaxAttempts_true_iff ctx :
  reachedMaxAttempts ctx = true
  ↔ ∃ j, job (storage ctx) = Some j
         ∧ ((∃ a, attempts j = Some a ∧ maxAttempts j = Some a)
            ∨ (attempts j = None ∧ maxAttempts j = Some 0)
            ∨ (attempts j = Some (-1) ∧ maxAttempts j = None)).
Proof.
  unfold reachedMaxAttempts.
  destruct (job (storage ctx)) as [[a m]|].
  - change (Z.eqb (nullish a 0) (nullish m (-1)) = true ↔
            ∃ j, Some {| attempts := a; maxAttempts := m |} = Some j
                 ∧ ((∃ a', attempts j = Some a' ∧ maxAttempts j = Some a')
                    ∨ (attempts j = None ∧ maxAttempts j = Some 0)
                    ∨ (attempts j = Some (-1) ∧ maxAttempts j = None))).
    rewrite Z.eqb_eq. split.
    + intros Heq. eexists. split; [done|]. cbn.
      destruct a as [a|], m as [m|]; cbn in Heq; subst.
      * left. by exists m.
      * by right; right.
      * by right; left.
      * done.
    + intros (j & Hj & H). injection Hj as <-. cbn in H.
      destruct H as [(a' & -> & ->)|[[-> ->]|[-> ->]]]; done.
  - split; [done|]. by intros (j & ? & _).
Qed.

(** *** The duration observation *)

(** X13.  For every outcome of the downstream the histogram is observed
    exactly once, with the difference of the two clock readings, and its
    status is ["failed"] when the downstream raised a value other than
    [null] and ["succeeded"] otherwise. *)
Theorem duration_observed_once_with_status opts ctx next clock :
  ∃ observed,
    histogram_observations "vaas_processing_duration" (trace (metrics opts ctx next clock))
    = [(observed, now_after clock - now_before clock)]
    ∧ observed !! "status"
      = Some (VStr match next.2 with
                   | Rejected e => if strict_ne_null e then "failed" else "succeeded"
                   | Fulfilled _ => "succeeded"
                   end).
Proof.
  destruct next as [ds o]. eexists. split; [apply duration_observed_once|].
  rewrite computedLabels_status. by destruct o as [[]|e].
Qed.

(** *** The declarations of the metrics *)

(** X14.  A label record built with [new MetricLabelsOpts(undefined,
    customizer)] has an empty allow-list: the customizer still is called
    once by [getLabels], but whatever it resolves or rejects with, the
    computed labels are [status] alone, and the counters and the histogram
    are declared with the engine's label names only. *)
Theorem default_labelNames_keep_status_only opts ctx failed custom
    (Hlabels : labels opts = Some (new_MetricLabelsOpts None custom)) :
  result (getLabels ctx opts failed)
  = Fulfilled {[ "status" := VStr (status_of failed) ]}
  ∧ customizer_calls (trace (getLabels ctx opts failed)) = 1%nat
  ∧ counter_labelNames (processedVaasTotal opts) = ["status"]
  ∧ counter_labelNames (finishedVaasTotal opts) = ["status"; "terminal"]
  ∧ histogram_labelNames (processingDuration opts) = ["status"].
Proof.
  split; [|split].
  - rewrite getLabels_eq. unfold result. cbn [snd]. f_equal.
    destruct (custom ctx) as [ds [c|e]] eqn:Hc.
    + rewrite (computedLabels_resolved _ _ _ _ _ _ Hlabels Hc). cbn.
      unfold spread. by rewrite (right_id_L ∅ (∪)).
    + by rewrite (computedLabels_rejected _ _ _ _ _ _ Hlabels Hc).
  - change (trace (getLabels ctx opts failed)) with (labelsTrace ctx opts failed).
    rewrite labelsTrace_eq, Hlabels.
    change (customizer_calls (CustomizerCalled :: ?t)) with (S (customizer_calls t)).
    rewrite customizer_calls_app, customizer_calls_External.
    by destruct (customizer _ ctx).2, (logger ctx).
  - cbn. unfold allowedKeys. by rewrite Hlabels.
Qed.

(** X15.  The label names are concatenated, not merged: the declaration of
    the finished counter is free of duplicates exactly when the allow-list
    is, and names neither [status] nor [terminal]; the declarations of the
    processed counter and of the histogram exactly when the allow-list is
    free of duplicates and does not name [status]. *)
Theorem declared_label_names_NoDup opts :
  (NoDup (counter_labelNames (finishedVaasTotal opts))
   ↔ NoDup (allowedKeys opts)
     ∧ ("status" ∉ allowedKeys opts) ∧ ("terminal" ∉ allowedKeys opts))
  ∧ (NoDup (counter_labelNames (processedVaasTotal opts))
     ↔ NoDup (allowedKeys opts) ∧ ("status" ∉ allowedKeys opts))
  ∧ (NoDup (histogram_labelNames (processingDuration opts))
     ↔ NoDup (allowedKeys opts) ∧ ("status" ∉ allowedKeys opts)).
Proof.
  cbn. rewrite !NoDup_cons, !not_elem_of_cons. repeat split; try tauto.
  all: intros; intuition discriminate.
Qed.

(** *** Several attempts *)

(** X16.  Over any sequence of invocations of one handler (the attempts of
    one job, or of several), whatever their outcomes, the three metrics stay
    in step: the processed counter, the finished counter and the histogram
    each have been hit once per invocation. *)
Theorem metrics_in_step_over_attempts opts
    (runs : list (StorageContext * Settled D unit * Clock)) :
  let tr := concat ((λ run, trace (metrics opts run.1.1 run.1.2 run.2)) <$> runs) in
  length (counter_increments "vaas_processed_total" tr) = length runs
  ∧ length (counter_increments "vaas_finished_total" tr) = length runs
  ∧ length (histogram_observations "vaas_processing_duration" tr) = length runs.
Proof.
  cbv zeta. induction runs as [|[[ctx [ds o]] clock] runs (IH1 & IH2 & IH3)]; [done|].
  cbn [fmap list_fmap concat fst snd].
  rewrite !counter_increments_app, histogram_observations_app, !length_app.
  rewrite processed_incremented_once, finished_incremented_once, duration_observed_once.
  cbn [length]. by rewrite IH1, IH2, IH3.
Qed.

End MetricsCoverage.

Section MetricsCoverageExamples.

Import Samples MoreSamples.

(** An allowed name that the record only inherits is kept, with the
    inherited member; [__proto__] is not. *)
Example getLabels_inherited_constructor :
  result (getLabels ctx_no_job opts_prototype_names false)
  = Fulfilled (<["constructor" := VBuiltin "constructor"]>
                 {[ "status" := VStr "succeeded" ]}).
Proof. reflexivity. Qed.

Example getLabels_own_proto_not_kept :
  result (getLabels ctx_no_job opts_own_proto false)
  = Fulfilled (<["toString" := VStr "s"]> {[ "status" := VStr "succeeded" ]}).
Proof. reflexivity. Qed.

Lemma labels_independent_of_allow_list_order_witness :
  getLabels ctx_no_job opts_aba false = getLabels ctx_no_job opts_ba false.
Proof.
  apply (labels_independent_of_allow_list_order opts_aba opts_ba ctx_no_job false
           _ _ eq_refl eq_refl eq_refl).
  intros k. cbn. rewrite !elem_of_cons, !elem_of_nil. tauto.
Defined.

Lemma labels_independent_of_dropped_keys_witness :
  result (getLabels ctx_no_job opts_ba true)
  = result (getLabels ctx_no_job opts_ba_small true).
Proof.
  apply (labels_independent_of_dropped_keys opts_ba opts_ba_small ctx_no_job true
           _ _ _ _ _ _ eq_refl eq_refl eq_refl eq_refl eq_refl).
  intros k. cbn. rewrite !elem_of_cons, elem_of_nil.
  intros [->|[->|[]]]; reflexivity.
Defined.

Lemma terminal_label_iff_reraised_witness :
  ∃ recorded,
    counter_increments "vaas_finished_total"
      (trace (metrics no_opts (ctx_of (Some 1) (Some 3) None) next_raises_error clock_5ms))
    = [recorded]
    ∧ is_Some (recorded !! "terminal").
Proof.
  destruct (terminal_label_iff_reraised no_opts (ctx_of (Some 1) (Some 3) None)
              next_raises_error clock_5ms)
    as (recorded & Hinc & Hiff & _).
  - cbn. apply not_elem_of_nil.
  - exists recorded. split; [exact Hinc|]. apply Hiff. eexists. reflexivity.
Defined.

Lemma customizer_terminal_replaced_on_failure_witness :
  ∃ observed recorded,
    histogram_observations "vaas_processing_duration"
      (trace (metrics opts_terminal (ctx_of (Some 3) (Some 3) None) next_raises_error clock_5ms))
    = [(observed, 5)]
    ∧ counter_increments "vaas_finished_total"
        (trace (metrics opts_terminal (ctx_of (Some 3) (Some 3) None) next_raises_error clock_5ms))
      = [recorded]
    ∧ observed !! "terminal" = Some (VStr "maybe")
    ∧ recorded !! "terminal" = Some (VStr "true").
Proof.
  apply (customizer_terminal_replaced_on_failure opts_terminal
           (ctx_of (Some 3) (Some 3) None) next_raises_error clock_5ms
           _ _ _ (VStr "maybe") eq_refl eq_refl).
  - cbn. apply list_elem_of_here.
  - reflexivity.
  - reflexivity.
Defined.

Lemma default_labelNames_keep_status_only_witness :
  result (getLabels ctx_no_job
            {| registry := None;
               labels := Some (new_MetricLabelsOpts None
                                 (λ _, (["customize"], Fulfilled {[ "a" := VNum 1 ]})));
               processingTimeBuckets := None |} true)
  = Fulfilled {[ "status" := VStr "failed" ]}.
Proof.
  apply (default_labelNames_keep_status_only
           {| registry := None;
              labels := Some (new_MetricLabelsOpts None
                                (λ _, (["customize"], Fulfilled {[ "a" := VNum 1 ]})));
              processingTimeBuckets := None |} ctx_no_job true _ eq_refl).
Defined.

End MetricsCoverageExamples.
